(** * Order projection and notification delivery of the logistics bot

    A shallow embedding of [src/bot.py]: the folds that group the rows of
    [cloud_sync_log] by order, the store queries the handlers issue, and the
    handlers that touch the user registry, the notification queue and the
    messaging gateway.

    Conventions of the model.
    - A Python [str] is a [string]; comparing two [str] is the lexicographic
      comparison of [String.compare].
    - A Python [dict] keyed by order id is a [gmap Z event].
    - The rows of a table are a [list]; a store query is a function from the
      table to the returned rows.  Timestamps are compared as their ISO
      texts.  The store calls are total on these in-memory tables: an
      unavailable store (the outer [except Exception] of each handler) is
      outside the model.
    - Every call to the store or to Telegram is recorded in a trace.  The call
      [context.bot.send_message] may raise; whether it returns normally is
      given by an oracle over what has happened so far.
    - Rendering a row or a count into message text is not modelled: a
      formatted message is kept as the values it is formatted from. *)

From Stdlib Require Import Ascii String.
From stdpp Require Import base option list sorting gmap strings.

Open Scope string_scope.
Open Scope list_scope.
Open Scope Z_scope.

(** * Part I: the program *)

(** ** Python operations on [str] *)

Module PyStr.

(** [a > b]. *)
Definition gt (a b : string) : bool := String.ltb b a.

(** [t.startswith(s)]. *)
Fixpoint startswith (s t : string) : bool :=
  match s, t with
  | EmptyString, _ => true
  | String a s', String b t' => Ascii.eqb a b && startswith s' t'
  | String _ _, EmptyString => false
  end.

(** [s in t]: [s] occurs in [t] as a contiguous, case-sensitive run. *)
Fixpoint contains (s t : string) : bool :=
  startswith s t ||
  match t with
  | EmptyString => false
  | String _ t' => contains s t'
  end.

(** The line feed of a string literal. *)
Definition nl : string := String "010"%char EmptyString.

End PyStr.

(** ** The store's [like] filter

    [.like(column, pattern)] reaches the database as SQL [column LIKE pattern]
    after the REST layer has turned every [*] of the pattern into [%].  In a
    LIKE pattern [%] stands for any run of characters, [_] for any one
    character, and a backslash makes the character after it literal.  A
    character is one [ascii] of the [string]. *)

Module Like.

Definition percent : ascii := "%"%char.
Definition underscore : ascii := "_"%char.
Definition backslash : ascii := "\"%char.
Definition star : ascii := "*"%char.

(** SQL [text LIKE pattern].  A pattern that ends in a lone backslash is
    rejected by the database; it matches nothing here.  The patterns built
    by [filter_by_status] end in [%]. *)
Fixpoint sql_like (pattern : string) : string → bool :=
  match pattern with
  | EmptyString => λ text, bool_decide (text = "")
  | String c rest =>
      if Ascii.eqb c percent then
        fix any (text : string) : bool :=
          sql_like rest text ||
          match text with
          | EmptyString => false
          | String _ text' => any text'
          end
      else if Ascii.eqb c underscore then
        λ text, match text with
                | EmptyString => false
                | String _ text' => sql_like rest text'
                end
      else if Ascii.eqb c backslash then
        match rest with
        | EmptyString => λ _, false
        | String d rest' =>
            λ text, match text with
                    | EmptyString => false
                    | String t text' => Ascii.eqb d t && sql_like rest' text'
                    end
        end
      else
        λ text, match text with
                | EmptyString => false
                | String t text' => Ascii.eqb c t && sql_like rest text'
                end
  end.

(** The REST layer's rewriting of a [like] pattern. *)
Fixpoint star_to_percent (pattern : string) : string :=
  match pattern with
  | EmptyString => EmptyString
  | String c rest =>
      String (if Ascii.eqb c star then percent else c) (star_to_percent rest)
  end.

(** [.like(column, pattern)] on one column value. *)
Definition like (pattern text : string) : bool :=
  sql_like (star_to_percent pattern) text.

(** A character that stands for itself in a [like] pattern. *)
Definition plain_char (c : ascii) : bool :=
  negb (Ascii.eqb c percent) && negb (Ascii.eqb c underscore) &&
  negb (Ascii.eqb c backslash) && negb (Ascii.eqb c star).

(** A string without pattern characters. *)
Fixpoint plain (s : string) : bool :=
  match s with
  | EmptyString => true
  | String c s' => plain_char c && plain s'
  end.

End Like.

(** ** Data model *)

(** The [event_data] column of a row of [cloud_sync_log]: a JSON object whose
    fields may be missing. *)
Record payload := Payload {
  client : option string;
  containers : option Z;
  weight : option Z;
  status : option string
}.

(** A row of [cloud_sync_log]. *)
Record event := Event {
  order_id : Z;
  order_number : option string;
  event_type : string;
  created_at : string;
  event_data : payload
}.

#[global] Instance payload_eq_dec : EqDecision payload.
Proof. solve_decision. Defined.

#[global] Instance event_eq_dec : EqDecision event.
Proof. solve_decision. Defined.

(** A row of [bot_users]. *)
Module BotUser.
Record t := Make {
  telegram_id : Z;
  username : option string;
  first_name : string;
  last_name : option string;
  is_admin : bool
}.
End BotUser.

(** A row of [notifications_queue]. *)
Module Notification.
Record t := Make {
  id : Z;
  telegram_id : Z;
  message_text : string;
  status : string;
  created_at : string;
  sent_at : option string
}.
End Notification.

(** [update.effective_user]. *)
Record effective_user := EffectiveUser {
  user_id : Z;
  user_username : option string;
  user_first_name : string;
  user_last_name : option string
}.

(** ** Active orders: the grouping of [show_orders] *)

(** One iteration of the loop [for event in response.data]. *)
Definition orders_dict_step (orders_dict : gmap Z event) (ev : event)
  : gmap Z event :=
  match orders_dict !! order_id ev with
  | None => <[order_id ev := ev]> orders_dict
  | Some cur =>
      if PyStr.gt (created_at ev) (created_at cur)
      then <[order_id ev := ev]> orders_dict
      else orders_dict
  end.

(** [orders_dict] after the loop over [response.data]. *)
Definition show_orders_dict (data : list event) : gmap Z event :=
  foldl orders_dict_step ∅ data.

(** ** Completed orders: the grouping of [show_completed_orders] *)

(** One iteration of the loop [for event in response.data]. *)
Definition completed_orders_step (completed_orders : gmap Z event) (ev : event)
  : gmap Z event :=
  match completed_orders !! order_id ev with
  | None => <[order_id ev := ev]> completed_orders
  | Some _ => completed_orders
  end.

(** [completed_orders] after the loop over [response.data]. *)
Definition show_completed_orders_dict (data : list event) : gmap Z event :=
  foldl completed_orders_step ∅ data.

(** ** Queries on [cloud_sync_log]

    Each query is the chain of calls the handler makes on
    [supabase.table("cloud_sync_log").select("*")], read as a function of the
    rows of the table.  [thirty_days_ago] is the ISO text of [datetime.now()]
    minus 30 days. *)

(** [.gte("created_at", thirty_days_ago)] on one row. *)
Definition in_window (thirty_days_ago : string) (e : event) : Prop :=
  String.le thirty_days_ago (created_at e).

(** The order of [.order("created_at", desc=True)]. *)
Definition newer_first (a b : event) : Prop :=
  String.le (created_at b) (created_at a).

#[global] Instance newer_first_dec : RelDecision newer_first.
Proof. intros a b. unfold newer_first. apply _. Defined.

(** [.order("created_at", desc=True)].  The store leaves the order of rows
    with equal [created_at] open; here it is the order the merge sort gives. *)
Definition order_created_at_desc (rows : list event) : list event :=
  merge_sort newer_first rows.

(** The query of [show_orders]. *)
Definition show_orders_fetch (thirty_days_ago : string) (log : list event)
  : list event :=
  order_created_at_desc
    (filter (in_window thirty_days_ago)
       (filter (λ e, event_type e ≠ "ORDER_DELETED") log)).

(** The query of [show_completed_orders]. *)
Definition show_completed_orders_fetch (thirty_days_ago : string)
    (log : list event) : list event :=
  order_created_at_desc
    (filter (in_window thirty_days_ago)
       (filter (λ e, status (event_data e) = Some "Completed") log)).

(** [event_data->>status LIKE pattern] on one row; a missing status is NULL,
    which no pattern selects. *)
Definition status_like (pattern : string) (e : event) : bool :=
  match status (event_data e) with
  | Some st => Like.like pattern st
  | None => false
  end.

(** The query of [filter_by_status]. *)
Definition filter_by_status_fetch (thirty_days_ago status_query : string)
    (log : list event) : list event :=
  order_created_at_desc
    (filter (in_window thirty_days_ago)
       (filter (λ e, status_like
                       (String.app "%" (String.app status_query "%")) e = true)
          log)).

(** ** Messages *)

(** An element of [message_lines] in [filter_by_status]. *)
Inductive line :=
| Title (status_query : string)
    (** the heading that quotes the query *)
| OrderInfo (idx : nat) (ev : event)
    (** the block of one row, numbered [idx] *)
| AndMore (n : Z).
    (** the closing line that says [n] more rows exist *)

(** [message_lines] of [filter_by_status] for a non-empty [response.data]. *)
Definition filter_by_status_lines (status_query : string) (data : list event)
  : list line :=
  Title status_query
  :: imap (λ i ev, OrderInfo (S i) ev) (take 20 data)
  ++ (if bool_decide (20 < length data)%nat
      then [AndMore (Z.of_nat (length data) - 20)]
      else []).

(** What a handler passes to [update.message.reply_text]. *)
Inductive reply :=
| Text (s : string)
    (** a fixed text *)
| Welcome (first_name : string)
    (** the greeting of [start] *)
| StatusUsage
    (** the usage note of [filter_by_status] *)
| StatusNotFound (status_query : string)
    (** no row has the status asked for *)
| Message (message_lines : list line)
    (** the lines joined by line feeds *)
| Stats (users_count admins events_count weekly_count : Z)
        (top : list (string * Z))
    (** the statistics text of [show_stats] *)
| Tally (sent_count failed_count : Z).
    (** the closing report of [send_notification] *)

Definition admins_only : string :=
  "⛔ Эта команда только для администраторов".
Definition notify_usage : string :=
  "ℹ️ Использование: /notify [текст уведомления]".
Definition no_users : string :=
  "📭 Нет зарегистрированных пользователей".

(** The text sent to every recipient of a broadcast. *)
Definition admin_notice (notification_text : string) : string :=
  String.app "🔔 **Уведомление от администратора:**"
    (String.app PyStr.nl (String.app PyStr.nl notification_text)).

(** ** The world of a handler *)

Inductive table := TBotUsers | TCloudSyncLog | TNotificationsQueue.

(** One call that leaves the process. *)
Inductive effect :=
| Select (t : table)
    (** a read of the store *)
| Insert (t : table)
| Update (t : table)
    (** writes of the store *)
| SendMessage (chat_id : Z) (text : string) (ok : bool)
    (** [context.bot.send_message], and whether it returned normally *)
| ReplyText (r : reply).
    (** [update.message.reply_text] to the caller *)

Record world := World {
  bot_users : list BotUser.t;
  cloud_sync_log : list event;
  notifications_queue : list Notification.t;
  trace : list effect
}.

#[global] Instance line_eq_dec : EqDecision line.
Proof. solve_decision. Defined.
#[global] Instance reply_eq_dec : EqDecision reply.
Proof. solve_decision. Defined.
#[global] Instance table_eq_dec : EqDecision table.
Proof. solve_decision. Defined.
#[global] Instance effect_eq_dec : EqDecision effect.
Proof. solve_decision. Defined.
#[global] Instance bot_user_eq_dec : EqDecision BotUser.t.
Proof. solve_decision. Defined.
#[global] Instance notification_eq_dec : EqDecision Notification.t.
Proof. solve_decision. Defined.

(** A handler: a function of the world that returns a value. *)
Definition M (A : Type) : Type := world → A * world.

#[global] Instance M_ret : MRet M := λ A a w, (a, w).

#[global] Instance M_bind : MBind M :=
  λ A B k m w, let '(a, w') := m w in k a w'.

(** The world after a handler has run. *)
Definition exec {A : Type} (m : M A) (w : world) : world := (m w).2.

Definition record (e : effect) (w : world) : world :=
  {| bot_users := bot_users w;
     cloud_sync_log := cloud_sync_log w;
     notifications_queue := notifications_queue w;
     trace := trace w ++ [e] |}.

(** [update.message.reply_text(r)]. *)
Definition reply_text (r : reply) : M unit :=
  λ w, ((), record (ReplyText r) w).

(** The order of [.order("created_at")]. *)
Definition older_first (a b : Notification.t) : Prop :=
  String.le (Notification.created_at a) (Notification.created_at b).

#[global] Instance older_first_dec : RelDecision older_first.
Proof. intros a b. unfold older_first. apply _. Defined.

(** [bot_users.select("*").eq("telegram_id", telegram_id)]. *)
Definition select_bot_user (telegram_id : Z) : M (list BotUser.t) :=
  λ w, (filter (λ u, BotUser.telegram_id u = telegram_id) (bot_users w),
        record (Select TBotUsers) w).

(** [bot_users.insert(user_data)]. *)
Definition insert_bot_user (user_data : BotUser.t) : M unit :=
  λ w, ((), record (Insert TBotUsers)
              {| bot_users := bot_users w ++ [user_data];
                 cloud_sync_log := cloud_sync_log w;
                 notifications_queue := notifications_queue w;
                 trace := trace w |}).

(** [bot_users.select("telegram_id")]. *)
Definition select_telegram_ids : M (list Z) :=
  λ w, (BotUser.telegram_id <$> bot_users w, record (Select TBotUsers) w).

(** [table.select("count")]: the number of rows. *)
Definition select_count (t : table) : M Z :=
  λ w, (match t with
        | TBotUsers => Z.of_nat (length (bot_users w))
        | TCloudSyncLog => Z.of_nat (length (cloud_sync_log w))
        | TNotificationsQueue => Z.of_nat (length (notifications_queue w))
        end,
        record (Select t) w).

(** [cloud_sync_log.select("event_type").gte("created_at", week_ago)]. *)
Definition select_event_types_since (week_ago : string) : M (list string) :=
  λ w, (event_type <$> filter (in_window week_ago) (cloud_sync_log w),
        record (Select TCloudSyncLog) w).

(** The query of [filter_by_status], as a call. *)
Definition select_by_status (thirty_days_ago status_query : string)
  : M (list event) :=
  λ w, (filter_by_status_fetch thirty_days_ago status_query (cloud_sync_log w),
        record (Select TCloudSyncLog) w).

(** The rows of the queue with [status = pending]. *)
Definition pending (queue : list Notification.t) : list Notification.t :=
  filter (λ n, Notification.status n = "pending") queue.

(** The result of
    [notifications_queue.select("*").eq("status", "pending").order("created_at").limit(10)]. *)
Definition pending_batch (queue : list Notification.t) : list Notification.t :=
  take 10 (merge_sort older_first (pending queue)).

Definition select_pending : M (list Notification.t) :=
  λ w, (pending_batch (notifications_queue w),
        record (Select TNotificationsQueue) w).

(** The row after [update({"status": "sent", "sent_at": ts})]. *)
Definition mark_sent (ts : string) (n : Notification.t) : Notification.t :=
  {| Notification.id := Notification.id n;
     Notification.telegram_id := Notification.telegram_id n;
     Notification.message_text := Notification.message_text n;
     Notification.status := "sent";
     Notification.created_at := Notification.created_at n;
     Notification.sent_at := Some ts |}.

(** [notifications_queue.update({...}).eq("id", id)]. *)
Definition update_sent (id : Z) (ts : string) : M unit :=
  λ w, ((), record (Update TNotificationsQueue)
              {| bot_users := bot_users w;
                 cloud_sync_log := cloud_sync_log w;
                 notifications_queue :=
                   (λ n, if bool_decide (Notification.id n = id)
                         then mark_sent ts n else n)
                   <$> notifications_queue w;
                 trace := trace w |}).

(** [weekly_stats[event_type] = weekly_stats.get(event_type, 0) + 1] on a
    dict kept in insertion order. *)
Fixpoint count_event_type (weekly_stats : list (string * Z))
    (event_type : string) : list (string * Z) :=
  match weekly_stats with
  | [] => [(event_type, 0 + 1)]
  | (k, v) :: rest =>
      if bool_decide (k = event_type) then (k, v + 1) :: rest
      else (k, v) :: count_event_type rest event_type
  end.

(** [sorted(items, key=lambda x: x[1], reverse=True)]: greatest count first,
    items of equal count in their original order. *)
Fixpoint insert_by_count (x : string * Z) (sorted : list (string * Z))
  : list (string * Z) :=
  match sorted with
  | [] => [x]
  | y :: rest =>
      if bool_decide (x.2 < y.2) then y :: insert_by_count x rest
      else x :: y :: rest
  end.

Definition sorted_by_count (items : list (string * Z)) : list (string * Z) :=
  foldr insert_by_count [] items.

Section Bot.

(** The identifiers in [ADMIN_IDS]. *)
Variable ADMIN_IDS : list Z.

(** Whether a call [context.bot.send_message(chat_id, text)] returns
    normally, given the calls made so far. *)
Variable send_ok : list effect → Z → string → bool.

(** [(datetime.now() - timedelta(days=d)).isoformat()], given the calls made
    so far. *)
Variable days_ago : nat → list effect → string.

(** [context.bot.send_message(chat_id, text)] inside a [try]: [true] when it
    returned, [false] when it raised. *)
Definition send_message (chat_id : Z) (text : string) : M bool :=
  λ w, let ok := send_ok (trace w) chat_id text in
       (ok, record (SendMessage chat_id text ok) w).

Definition isoformat_days_ago (d : nat) : M string :=
  λ w, (days_ago d (trace w), w).

(** The dict [user_data] of [start]. *)
Definition user_data (user : effective_user) : BotUser.t :=
  {| BotUser.telegram_id := user_id user;
     BotUser.username := user_username user;
     BotUser.first_name := user_first_name user;
     BotUser.last_name := user_last_name user;
     BotUser.is_admin := bool_decide (user_id user ∈ ADMIN_IDS) |}.

(** [start]. *)
Definition start (user : effective_user) : M unit :=
  let telegram_id := user_id user in
  data ← select_bot_user telegram_id;
  (if bool_decide (length data = 0%nat)
   then insert_bot_user (user_data user)
   else mret ());;
  reply_text (Welcome (user_first_name user)).

(** [filter_by_status]. *)
Definition filter_by_status (args : list string) : M unit :=
  if bool_decide (args = []) then reply_text StatusUsage
  else
    let status_query := String.concat " " args in
    thirty_days_ago ← isoformat_days_ago 30;
    data ← select_by_status thirty_days_ago status_query;
    if bool_decide (data = []) then reply_text (StatusNotFound status_query)
    else reply_text (Message (filter_by_status_lines status_query data)).

(** [show_stats]. *)
Definition show_stats (user : effective_user) : M unit :=
  if bool_decide (user_id user ∉ ADMIN_IDS) then reply_text (Text admins_only)
  else
    users_count ← select_count TBotUsers;
    events_count ← select_count TCloudSyncLog;
    week_ago ← isoformat_days_ago 7;
    weekly ← select_event_types_since week_ago;
    let weekly_stats := foldl count_event_type [] weekly in
    reply_text (Stats users_count (Z.of_nat (length ADMIN_IDS)) events_count
                  (Z.of_nat (length weekly))
                  (take 10 (sorted_by_count weekly_stats))).

(** The loop [for user in users_response.data] of [send_notification]. *)
Fixpoint notify_loop (text : string) (users : list Z)
    (sent_count failed_count : Z) : M (Z * Z) :=
  match users with
  | [] => mret (sent_count, failed_count)
  | telegram_id :: rest =>
      send_message telegram_id text ≫= λ ok : bool,
      if ok then notify_loop text rest (sent_count + 1) failed_count
      else notify_loop text rest sent_count (failed_count + 1)
  end.

(** [send_notification]. *)
Definition send_notification (user : effective_user) (args : list string)
  : M unit :=
  if bool_decide (user_id user ∉ ADMIN_IDS) then reply_text (Text admins_only)
  else if bool_decide (args = []) then reply_text (Text notify_usage)
  else
    let notification_text := String.concat " " args in
    users ← select_telegram_ids;
    if bool_decide (users = []) then reply_text (Text no_users)
    else
      notify_loop (admin_notice notification_text) users 0 0
        ≫= λ counts : Z * Z,
      reply_text (Tally counts.1 counts.2).

(** The loop [for notification in response.data] of [check_notifications]. *)
Fixpoint dispatch_loop (batch : list Notification.t) : M unit :=
  match batch with
  | [] => mret ()
  | notification :: rest =>
      send_message (Notification.telegram_id notification)
                   (Notification.message_text notification) ≫= λ ok : bool,
      (if ok
       then ts ← isoformat_days_ago 0;
            update_sent (Notification.id notification) ts
       else mret ());;
      dispatch_loop rest
  end.

(** [check_notifications]: one poll cycle. *)
Definition check_notifications : M unit :=
  batch ← select_pending;
  dispatch_loop batch.

End Bot.

(** ** Vocabulary of the properties *)

(** [ev] is, among the events of order [oid] in [data], the first one that
    carries the greatest [created_at]. *)
Definition first_latest (oid : Z) (data : list event) (ev : event) : Prop :=
  order_id ev = oid ∧
  ∃ before after,
    data = before ++ ev :: after ∧
    (∀ e, e ∈ before → order_id e = oid →
          PyStr.gt (created_at ev) (created_at e) = true) ∧
    (∀ e, e ∈ after → order_id e = oid →
          String.le (created_at e) (created_at ev)).

(** [s] is a substring of [t]. *)
Definition substring_of (s t : string) : Prop :=
  ∃ pre suf, t = String.app pre (String.app s suf).

(** The payload of [e] has a status, and [status_query] is a substring of
    it. *)
Definition status_has (status_query : string) (e : event) : Prop :=
  ∃ st, status (event_data e) = Some st ∧ substring_of status_query st.

(** [status_query in status] for the status of a row; false without one. *)
Definition status_contains (status_query : string) (e : event) : bool :=
  match status (event_data e) with
  | Some st => PyStr.contains status_query st
  | None => false
  end.

#[global] Instance in_window_dec (thirty_days_ago : string) (e : event) :
  Decision (in_window thirty_days_ago e).
Proof. unfold in_window. apply _. Defined.

(** The lines of a reply, the rows they list and the remainder counts they
    announce. *)
Definition reply_lines (r : reply) : list line :=
  match r with
  | Message message_lines => message_lines
  | _ => []
  end.

Definition line_row (l : line) : option event :=
  match l with
  | OrderInfo _ ev => Some ev
  | _ => None
  end.

Definition line_remainder (l : line) : option Z :=
  match l with
  | AndMore n => Some n
  | _ => None
  end.

Definition reply_rows (r : reply) : list event :=
  omap line_row (reply_lines r).

Definition reply_remainders (r : reply) : list Z :=
  omap line_remainder (reply_lines r).

(** The rows of the registry that belong to [telegram_id]. *)
Definition rows_of (telegram_id : Z) (users : list BotUser.t)
  : list BotUser.t :=
  filter (λ u, BotUser.telegram_id u = telegram_id) users.

(** The gateway calls among the effects, in order. *)
Definition sends (tr : list effect) : list (Z * string * bool) :=
  omap (λ e, match e with
             | SendMessage chat_id text ok => Some (chat_id, text, ok)
             | _ => None
             end) tr.

(** The number of [b] in [oks]. *)
Definition count_ok (b : bool) (oks : list bool) : Z :=
  Z.of_nat (length (filter (λ ok, ok = b) oks)).

(** The world after [effects] more calls that change no table. *)
Definition after (effects : list effect) (w : world) : world :=
  {| bot_users := bot_users w;
     cloud_sync_log := cloud_sync_log w;
     notifications_queue := notifications_queue w;
     trace := trace w ++ effects |}.

(** The registry after [start] for [user]. *)
Definition register (ADMIN_IDS : list Z) (user : effective_user)
    (users : list BotUser.t) : list BotUser.t :=
  if bool_decide (rows_of (user_id user) users = [])
  then users ++ [user_data ADMIN_IDS user]
  else users.

(** The outcomes of the gateway calls of a broadcast of [text] to [users]
    that starts after the calls [tr]. *)
Fixpoint broadcast_oks (send_ok : list effect → Z → string → bool)
    (text : string) (users : list Z) (tr : list effect) : list bool :=
  match users with
  | [] => []
  | chat_id :: rest =>
      let ok := send_ok tr chat_id text in
      ok :: broadcast_oks send_ok text rest
              (tr ++ [SendMessage chat_id text ok])
  end.

(** The outcome of each gateway call of a poll cycle over [batch] that starts
    after the calls [tr]: whether the call returned, and the time text read
    after it. *)
Fixpoint dispatch_outcomes (send_ok : list effect → Z → string → bool)
    (days_ago : nat → list effect → string)
    (batch : list Notification.t) (tr : list effect) : list (bool * string) :=
  match batch with
  | [] => []
  | n :: rest =>
      let chat_id := Notification.telegram_id n in
      let text := Notification.message_text n in
      let ok := send_ok tr chat_id text in
      let tr1 := tr ++ [SendMessage chat_id text ok] in
      (ok, days_ago 0%nat tr1)
      :: dispatch_outcomes send_ok days_ago rest
           (if ok then tr1 ++ [Update TNotificationsQueue] else tr1)
  end.

(** The calls made for one task of a poll cycle. *)
Definition dispatch_effects (n : Notification.t) (ok : bool) : list effect :=
  SendMessage (Notification.telegram_id n) (Notification.message_text n) ok
  :: (if ok then [Update TNotificationsQueue] else []).

(** The row [m] after the step of the poll cycle for the task [n] with
    outcome [o]. *)
Definition mark_row (n : Notification.t) (o : bool * string)
    (m : Notification.t) : Notification.t :=
  if o.1 && bool_decide (Notification.id m = Notification.id n)
  then mark_sent o.2 m else m.

(** The row [m] after the steps for all of [batch]. *)
Definition mark_rows (batch : list Notification.t)
    (outcomes : list (bool * string)) (m : Notification.t) : Notification.t :=
  foldl (λ m p, mark_row p.1 p.2 m) m (zip batch outcomes).

(** ** Sample data *)

Module Sample.

Definition ev (oid : Z) (ty ts st : string) : event :=
  {| order_id := oid; order_number := None; event_type := ty;
     created_at := ts;
     event_data := {| client := None; containers := None; weight := None;
                      status := Some st |} |}.

(** Order 1 is created, completed and later deleted; order 2 is created;
    order 3 is only deleted. *)
Definition a1 : event := ev 1 "ORDER_CREATED" "2024-05-01T08:00:00" "New".
Definition a3 : event := ev 1 "STATUS_CHANGED" "2024-05-03T08:00:00" "Completed".
Definition a4 : event := ev 1 "ORDER_DELETED" "2024-05-04T08:00:00" "Completed".
Definition b2 : event := ev 2 "ORDER_CREATED" "2024-05-02T08:00:00" "New".
Definition c5 : event := ev 3 "ORDER_DELETED" "2024-05-05T08:00:00" "Cancelled".

(** A second event of order 1 with the timestamp of [a3]. *)
Definition a3' : event := ev 1 "STATUS_CHANGED" "2024-05-03T08:00:00" "In Progress IR".

Definition log : list event := [a1; a3; a4; b2; c5].

Definition cutoff : string := "2024-04-15T00:00:00".

(** 21 events with the status [New]. *)
Definition many : list event :=
  (λ i, ev (Z.of_nat i) "ORDER_CREATED" "2024-05-02T08:00:00" "New")
  <$> seq 0 21.

Definition user (i : Z) : effective_user :=
  {| user_id := i; user_username := None; user_first_name := "user";
     user_last_name := None |}.

Definition row (i : Z) : BotUser.t :=
  {| BotUser.telegram_id := i; BotUser.username := None;
     BotUser.first_name := "user"; BotUser.last_name := None;
     BotUser.is_admin := bool_decide (i = 1) |}.

Definition task (i chat : Z) (st ts : string) : Notification.t :=
  {| Notification.id := i; Notification.telegram_id := chat;
     Notification.message_text := "ping"; Notification.status := st;
     Notification.created_at := ts; Notification.sent_at := None |}.

(** Three pending tasks, queued out of order, and one already sent. *)
Definition queue : list Notification.t :=
  [ task 1 7 "pending" "2024-05-03T08:00:00";
    task 2 8 "pending" "2024-05-01T08:00:00";
    task 3 9 "sent" "2024-04-30T08:00:00";
    task 4 8 "pending" "2024-05-02T08:00:00" ].

Definition world0 : world :=
  {| bot_users := []; cloud_sync_log := log; notifications_queue := queue;
     trace := [] |}.

(** The registry holds the users 1, 2 and 3. *)
Definition world3 : world :=
  {| bot_users := [row 1; row 2; row 3]; cloud_sync_log := many;
     notifications_queue := queue; trace := [] |}.

(** User 1 is the administrator. *)
Definition admins : list Z := [1].

(** Every call to the chat 2 or the chat 8 raises. *)
Definition gateway (tr : list effect) (chat_id : Z) (text : string) : bool :=
  negb (bool_decide (chat_id = 2) || bool_decide (chat_id = 8)).

Definition clock (d : nat) (tr : list effect) : string :=
  match d with
  | O => "2024-05-15T00:00:00"
  | _ => cutoff
  end.

End Sample.

(** * Part II: properties *)

(** ** Facts on Python strings *)

Module PyStrFacts.

Lemma ltb_negb_leb (a b : string) : String.ltb a b = negb (String.leb b a).
Proof.
  unfold String.ltb, String.leb. rewrite (String.compare_antisym a b).
  by destruct (String.compare b a).
Qed.

Lemma gt_false_le (a b : string) : PyStr.gt a b = false → String.le a b.
Proof.
  unfold PyStr.gt, String.le. rewrite ltb_negb_leb.
  destruct (String.leb a b); naive_solver.
Qed.

Lemma gt_true_nle (a b : string) : PyStr.gt a b = true → ¬ String.le a b.
Proof.
  unfold PyStr.gt, String.le. rewrite ltb_negb_leb.
  destruct (String.leb a b); naive_solver.
Qed.

Lemma gt_true_le (a b : string) : PyStr.gt a b = true → String.le b a.
Proof.
  intros H%gt_true_nle. by destruct (total String.le a b).
Qed.

Lemma le_gt_trans (a b c : string) :
  String.le a b → PyStr.gt c b = true → PyStr.gt c a = true.
Proof.
  intros Hab Hcb. destruct (PyStr.gt c a) eqn:Hca; [done|].
  apply gt_false_le in Hca. apply gt_true_nle in Hcb.
  destruct Hcb. by etrans.
Qed.

Lemma app_empty_r (s : string) : String.app s "" = s.
Proof.
  induction s as [|c s IH]; [done|].
  change (String.app (String c s) "") with (String c (String.app s "")).
  by rewrite IH.
Qed.

Lemma startswith_spec (s t : string) :
  PyStr.startswith s t = true ↔ ∃ suf, t = String.app s suf.
Proof.
  revert t. induction s as [|a s IH]; intros t; simpl.
  - split; [eauto | done].
  - destruct t as [|b t].
    + split; [done | by intros [suf Hsuf]].
    + rewrite andb_true_iff, Ascii.eqb_eq, IH. split.
      * intros [-> [suf ->]]. by exists suf.
      * intros [suf [= -> ->]]. eauto.
Qed.

Lemma contains_spec (s t : string) :
  PyStr.contains s t = true ↔ substring_of s t.
Proof.
  unfold substring_of.
  induction t as [|b t IH]; simpl; rewrite orb_true_iff, startswith_spec.
  - split.
    + intros [[suf Hsuf]|?]; [|done]. by exists "", suf.
    + intros (pre & suf & H). left. exists suf.
      destruct pre; [done | discriminate].
  - rewrite IH. split.
    + intros [[suf Hsuf]|(pre & suf & ->)].
      * by exists "", suf.
      * by exists (String b pre), suf.
    + intros (pre & suf & H). destruct pre as [|c pre].
      * left. by exists suf.
      * right. injection H as -> ->. eauto.
Qed.

End PyStrFacts.

(** ** Facts on [like] patterns *)

Module LikeFacts.

Import Like.

Lemma sql_like_percent (rest text : string) :
  sql_like (String percent rest) text = true ↔
  ∃ pre suf, text = String.app pre suf ∧ sql_like rest suf = true.
Proof.
  simpl. induction text as [|t text IH].
  - rewrite orb_false_r. split.
    + intros H. exists "", "". by split; [reflexivity|].
    + intros (pre & suf & Heq & H). by destruct pre, suf.
  - rewrite orb_true_iff, IH. split.
    + intros [H|(pre & suf & -> & H)].
      * by exists "", (String t text).
      * by exists (String t pre), suf.
    + intros (pre & suf & Heq & H). destruct pre as [|c pre].
      * left. change (String t text = suf) in Heq. by subst.
      * right. injection Heq as -> ->. eauto.
Qed.

Lemma sql_like_plain (s rest text : string) :
  plain s = true →
  sql_like (String.app s rest) text = true ↔
  ∃ suf, text = String.app s suf ∧ sql_like rest suf = true.
Proof.
  revert text. induction s as [|c s IH]; intros text Hs.
  - split; [eauto | by intros (suf & -> & H)].
  - simpl in Hs. apply andb_true_iff in Hs as [Hc Hs].
    unfold plain_char in Hc.
    change (String.app (String c s) rest) with (String c (String.app s rest)).
    cbn [sql_like].
    destruct (Ascii.eqb c percent) eqn:E1; [done|].
    destruct (Ascii.eqb c underscore) eqn:E2; [done|].
    destruct (Ascii.eqb c backslash) eqn:E3; [done|].
    destruct text as [|t text].
    + split; [done | by intros (suf & Heq & _)].
    + rewrite andb_true_iff, Ascii.eqb_eq, IH by done. split.
      * intros [-> (suf & -> & H)]. by exists suf.
      * intros (suf & [= -> ->] & H). eauto.
Qed.

Lemma star_to_percent_plain (s : string) :
  plain s = true → star_to_percent s = s.
Proof.
  induction s as [|c s IH]; [done|]. simpl. intros [Hc Hs]%andb_true_iff.
  unfold plain_char in Hc. apply andb_true_iff in Hc as [_ Hc].
  destruct (Ascii.eqb c star); [done|]. by rewrite IH.
Qed.

Lemma star_to_percent_app (s t : string) :
  star_to_percent (String.app s t) =
  String.app (star_to_percent s) (star_to_percent t).
Proof.
  induction s as [|c s IH]; [done|].
  change (String.app (String c s) t) with (String c (String.app s t)).
  simpl. rewrite IH. reflexivity.
Qed.

Lemma sql_like_any (text : string) : sql_like "%" text = true.
Proof.
  apply (sql_like_percent "" text). exists text, "".
  by rewrite PyStrFacts.app_empty_r.
Qed.

(** With a plain [s], the pattern [%s%] selects the texts that contain [s]. *)
Lemma like_contains (s text : string) :
  plain s = true →
  like (String.app "%" (String.app s "%")) text = PyStr.contains s text.
Proof.
  intros Hs. unfold like.
  rewrite !star_to_percent_app, (star_to_percent_plain s) by done.
  change (String.app (star_to_percent "%") ?r) with (String percent r).
  change (star_to_percent "%") with "%".
  apply eq_true_iff_eq.
  rewrite sql_like_percent, PyStrFacts.contains_spec. split.
  - intros (pre & suf & -> & H).
    apply sql_like_plain in H as (suf' & -> & _); [|done].
    by exists pre, suf'.
  - intros (pre & suf & ->). exists pre, (String.app s suf). split; [done|].
    apply sql_like_plain; [done|]. exists suf. split; [done|].
    apply sql_like_any.
Qed.

End LikeFacts.

(** ** Active orders *)

Lemma orders_dict_step_other (m : gmap Z event) (ev : event) (oid : Z) :
  order_id ev ≠ oid → orders_dict_step m ev !! oid = m !! oid.
Proof.
  intros Hne. unfold orders_dict_step.
  destruct (m !! order_id ev) as [cur|]; [destruct (PyStr.gt _ _)|];
    by rewrite ?lookup_insert_ne.
Qed.

Lemma orders_dict_step_same (m : gmap Z event) (ev : event) :
  orders_dict_step m ev !! order_id ev =
  Some (match m !! order_id ev with
        | None => ev
        | Some cur =>
            if PyStr.gt (created_at ev) (created_at cur) then ev else cur
        end).
Proof.
  unfold orders_dict_step.
  destruct (m !! order_id ev) as [cur|] eqn:Hcur;
    [destruct (PyStr.gt _ _)|]; by rewrite ?lookup_insert_eq.
Qed.

Lemma show_orders_dict_None (data : list event) (oid : Z) :
  show_orders_dict data !! oid = None ↔ ∀ e, e ∈ data → order_id e ≠ oid.
Proof.
  unfold show_orders_dict.
  induction data as [|x l IH] using rev_ind.
  - split; [intros _ e He; by apply elem_of_nil in He | done].
  - rewrite foldl_snoc. destruct (decide (order_id x = oid)) as [<-|Hne].
    + rewrite orders_dict_step_same. split; [done|].
      intros Hall. destruct (Hall x); [|done].
      apply elem_of_app. right. apply list_elem_of_here.
    + rewrite orders_dict_step_other by done. rewrite IH. split.
      * intros Hl e [He| ->%list_elem_of_singleton]%elem_of_app; auto.
      * intros Hall e He. apply Hall, elem_of_app. by left.
Qed.

Lemma first_latest_snoc_other (oid : Z) (l : list event) (x ev : event) :
  order_id x ≠ oid → first_latest oid l ev → first_latest oid (l ++ [x]) ev.
Proof.
  intros Hne (Hid & before & after & -> & Hb & Ha).
  split; [done|]. exists before, (after ++ [x]). split_and!; [|done|].
  - by rewrite <-app_assoc.
  - intros e [He| ->%list_elem_of_singleton]%elem_of_app ?; [auto | done].
Qed.

Lemma first_latest_bound (oid : Z) (l : list event) (ev e : event) :
  first_latest oid l ev → e ∈ l → order_id e = oid →
  String.le (created_at e) (created_at ev).
Proof.
  intros (Hid & before & after & -> & Hb & Ha) He Hoid.
  apply elem_of_app in He as [He|He].
  - by apply PyStrFacts.gt_true_le, Hb.
  - apply elem_of_cons in He as [->|He]; [done | by apply Ha].
Qed.

Lemma first_latest_elem (oid : Z) (data : list event) (ev : event) :
  first_latest oid data ev → ev ∈ data.
Proof.
  intros (_ & before & after & -> & _).
  apply elem_of_app. right. apply list_elem_of_here.
Qed.

Lemma show_orders_dict_Some (data : list event) (oid : Z) (ev : event) :
  show_orders_dict data !! oid = Some ev → first_latest oid data ev.
Proof.
  unfold show_orders_dict. revert ev.
  induction data as [|x l IH] using rev_ind; intros ev.
  - simpl. by rewrite lookup_empty.
  - rewrite foldl_snoc. destruct (decide (order_id x = oid)) as [<-|Hne].
    2:{ rewrite orders_dict_step_other by done.
        intros H. by apply first_latest_snoc_other, IH. }
    rewrite orders_dict_step_same.
    destruct (foldl orders_dict_step ∅ l !! order_id x) as [cur|] eqn:Hcur.
    + specialize (IH cur eq_refl).
      destruct (PyStr.gt (created_at x) (created_at cur)) eqn:Hgt.
      * intros [= <-].
        split; [done|]. exists l, [].
        split_and!; [done| |by intros e ?%elem_of_nil].
        intros e He Hoid.
        eapply PyStrFacts.le_gt_trans; [|exact Hgt].
        by eapply first_latest_bound.
      * intros [= <-].
        destruct IH as (Hid & before & after & -> & Hb & Ha).
        split; [done|]. exists before, (after ++ [x]).
        split_and!; [by rewrite <-app_assoc | done |].
        intros e [He| ->%list_elem_of_singleton]%elem_of_app ?; [auto|].
        by apply PyStrFacts.gt_false_le.
    + intros [= <-].
      split; [done|]. exists l, [].
      split_and!; [done| |by intros e ?%elem_of_nil].
      intros e He Hoid. exfalso.
      by eapply (proj1 (show_orders_dict_None l (order_id x))).
Qed.

Lemma show_orders_dict_is_Some (data : list event) (oid : Z) :
  is_Some (show_orders_dict data !! oid) ↔ ∃ e, e ∈ data ∧ order_id e = oid.
Proof.
  split.
  - intros [ev Hev]. exists ev.
    apply show_orders_dict_Some in Hev as Hfl.
    split; [by eapply first_latest_elem | apply Hfl].
  - intros (e & He & Hoid). apply not_eq_None_Some.
    rewrite show_orders_dict_None. intros Hall. by apply (Hall e).
Qed.

(** C1.  The grouping of [show_orders] has one entry per order id (its keys
    are pairwise distinct); an order has an entry exactly when the input has an
    event of that order; and the entry kept for an order is an event of that
    order from the input whose [created_at] is greatest among the order's
    events, the first such event in input order when several share it. *)
Theorem show_orders_dict_keeps_first_latest (data : list event) :
  NoDup (map_to_list (show_orders_dict data)).*1 ∧
  (∀ oid, is_Some (show_orders_dict data !! oid) ↔
          ∃ e, e ∈ data ∧ order_id e = oid) ∧
  (∀ oid ev, show_orders_dict data !! oid = Some ev →
             first_latest oid data ev).
Proof.
  split_and!.
  - apply NoDup_fst_map_to_list.
  - apply show_orders_dict_is_Some.
  - intros oid ev. apply show_orders_dict_Some.
Qed.

Lemma NoDup_fmap_eq {A B : Type} (f : A → B) (l : list A) (x y : A) :
  NoDup (f <$> l) → x ∈ l → y ∈ l → f x = f y → x = y.
Proof.
  induction l as [|a l IH]; intros Hnd Hx Hy Hf.
  - by apply elem_of_nil in Hx.
  - rewrite fmap_cons in Hnd. apply NoDup_cons in Hnd as [Hna Hnd].
    apply elem_of_cons in Hx as [->|Hx]; apply elem_of_cons in Hy as [->|Hy].
    + done.
    + destruct Hna. rewrite Hf. by apply list_elem_of_fmap_2.
    + destruct Hna. rewrite <-Hf. by apply list_elem_of_fmap_2.
    + by apply IH.
Qed.

(** C9.  When the [created_at] values of the input events are pairwise
    distinct, reordering the input does not change the grouping of
    [show_orders]: every order id is mapped to the same event. *)
Theorem show_orders_dict_permutation (data data' : list event) :
  NoDup (created_at <$> data) →
  data ≡ₚ data' →
  show_orders_dict data = show_orders_dict data'.
Proof.
  intros Hnd Hperm. apply map_eq. intros oid.
  destruct (show_orders_dict data !! oid) as [ev|] eqn:Hev;
    destruct (show_orders_dict data' !! oid) as [ev'|] eqn:Hev'; [| | |done].
  - apply show_orders_dict_Some in Hev, Hev'.
    pose proof (first_latest_elem _ _ _ Hev) as Hin.
    pose proof (first_latest_elem _ _ _ Hev') as Hin'.
    rewrite <-Hperm in Hin'.
    f_equal. apply (NoDup_fmap_eq created_at data); [done..|].
    apply (anti_symm String.le).
    + eapply first_latest_bound; [exact Hev'| by rewrite <-Hperm | apply Hev].
    + eapply first_latest_bound; [exact Hev| done | apply Hev'].
  - apply show_orders_dict_Some in Hev.
    rewrite show_orders_dict_None in Hev'.
    destruct (Hev' ev); [|apply Hev].
    rewrite <-Hperm. by eapply first_latest_elem.
  - apply show_orders_dict_Some in Hev'.
    rewrite show_orders_dict_None in Hev.
    destruct (Hev ev'); [|apply Hev'].
    rewrite Hperm. by eapply first_latest_elem.
Qed.

(** ** Completed orders *)

Lemma completed_orders_foldl (data : list event) (m : gmap Z event) (oid : Z) :
  foldl completed_orders_step m data !! oid =
  match m !! oid with
  | Some ev => Some ev
  | None => head (filter (λ e, order_id e = oid) data)
  end.
Proof.
  revert m. induction data as [|x l IH]; intros m; simpl.
  - by destruct (m !! oid).
  - rewrite IH. unfold completed_orders_step. rewrite filter_cons.
    destruct (decide (order_id x = oid)) as [<-|Hne].
    + destruct (m !! order_id x) as [cur|] eqn:Hcur; [by rewrite Hcur|].
      by rewrite lookup_insert_eq.
    + destruct (m !! order_id x) as [cur|] eqn:Hcur; [done|].
      by rewrite lookup_insert_ne.
Qed.

(** ** Queries on [cloud_sync_log] *)

#[global] Instance newer_first_trans : Transitive newer_first.
Proof. intros a b c Hab Hbc. unfold newer_first in *. by etrans. Qed.

#[global] Instance newer_first_total : Total newer_first.
Proof. intros a b. unfold newer_first. apply (total String.le). Qed.

Lemma elem_of_order_created_at_desc (rows : list event) (e : event) :
  e ∈ order_created_at_desc rows ↔ e ∈ rows.
Proof. unfold order_created_at_desc. by rewrite merge_sort_Permutation. Qed.

(** C7.  The rows fetched by [show_completed_orders] come newest first, and
    the grouping maps every order id to the first event of that order in the
    fetched sequence, whatever the later events of the order are; it has one
    entry per order id. *)
Theorem show_completed_orders_dict_first (data : list event) :
  (∀ thirty_days_ago log,
     StronglySorted newer_first
       (show_completed_orders_fetch thirty_days_ago log)) ∧
  NoDup (map_to_list (show_completed_orders_dict data)).*1 ∧
  ∀ oid, show_completed_orders_dict data !! oid =
         head (filter (λ e, order_id e = oid) data).
Proof.
  split_and!.
  - intros thirty_days_ago log.
    apply (StronglySorted_merge_sort newer_first).
  - apply NoDup_fst_map_to_list.
  - intros oid. unfold show_completed_orders_dict.
    by rewrite completed_orders_foldl, lookup_empty.
Qed.

(** C5.  The grouping of [show_orders] is built from the rows fetched with
    [ORDER_DELETED] events left out: an entry is never an [ORDER_DELETED]
    event, and an order has an entry exactly when the window holds an event of
    it that is not a deletion, whatever deletions of that order the window
    holds besides. *)
Theorem show_orders_ignores_deleted (thirty_days_ago : string)
    (log : list event) :
  let orders_dict :=
    show_orders_dict (show_orders_fetch thirty_days_ago log) in
  (∀ oid ev, orders_dict !! oid = Some ev →
     ev ∈ log ∧ order_id ev = oid ∧
     event_type ev ≠ "ORDER_DELETED" ∧ in_window thirty_days_ago ev) ∧
  (∀ oid, is_Some (orders_dict !! oid) ↔
     ∃ e, e ∈ log ∧ order_id e = oid ∧
          in_window thirty_days_ago e ∧ event_type e ≠ "ORDER_DELETED").
Proof.
  assert (Hmem : ∀ e, e ∈ show_orders_fetch thirty_days_ago log ↔
                      e ∈ log ∧ in_window thirty_days_ago e ∧
                      event_type e ≠ "ORDER_DELETED").
  { intros e. unfold show_orders_fetch.
    rewrite elem_of_order_created_at_desc, !list_elem_of_filter. tauto. }
  split.
  - intros oid ev Hev. apply show_orders_dict_Some in Hev.
    pose proof (first_latest_elem _ _ _ Hev) as Hin.
    apply Hmem in Hin. destruct Hev as [Hid _]. tauto.
  - intros oid. rewrite show_orders_dict_is_Some.
    split; intros (e & He & Hid).
    + apply Hmem in He. exists e. tauto.
    + exists e. rewrite Hmem. tauto.
Qed.

(** ** The status filter *)

Lemma status_like_contains (status_query : string) (e : event) :
  Like.plain status_query = true →
  status_like (String.app "%" (String.app status_query "%")) e =
  status_contains status_query e.
Proof.
  intros Hs. unfold status_like, status_contains.
  destruct (status (event_data e)) as [st|]; [|done].
  by apply LikeFacts.like_contains.
Qed.

Lemma status_contains_has (status_query : string) (e : event) :
  status_contains status_query e = true ↔ status_has status_query e.
Proof.
  unfold status_contains, status_has.
  destruct (status (event_data e)) as [st|].
  - rewrite PyStrFacts.contains_spec. split; [eauto|].
    by intros (st' & [= <-] & H).
  - split; [done | by intros (st' & ? & _)].
Qed.

(** C2.  When the argument [status_query] holds none of the pattern
    characters [%], [_], backslash and [*], an event of the window is in the
    result of the status query exactly when [status_query] is a substring of
    its payload status; and the result holds every such row of the table as
    often as the table does, several rows of one order included. *)
Theorem filter_by_status_fetch_plain (thirty_days_ago status_query : string)
    (log : list event) :
  Like.plain status_query = true →
  (∀ e, e ∈ log → in_window thirty_days_ago e →
        (e ∈ filter_by_status_fetch thirty_days_ago status_query log ↔
         status_has status_query e)) ∧
  filter_by_status_fetch thirty_days_ago status_query log ≡ₚ
    filter (λ e, in_window thirty_days_ago e ∧
                 status_contains status_query e = true) log.
Proof.
  intros Hs. split.
  - intros e He Hw. unfold filter_by_status_fetch.
    rewrite elem_of_order_created_at_desc, !list_elem_of_filter.
    rewrite status_like_contains, status_contains_has by done. tauto.
  - unfold filter_by_status_fetch, order_created_at_desc.
    rewrite merge_sort_Permutation, list_filter_filter.
    apply reflexive_eq, list_filter_iff. intros e.
    rewrite status_like_contains by done. tauto.
Qed.

Lemma omap_line_row_imap (f : nat → event → line) (data : list event) :
  (∀ i ev, line_row (f i ev) = Some ev) → omap line_row (imap f data) = data.
Proof.
  revert f. induction data as [|x l IH]; intros f Hf; [done|].
  simpl. rewrite Hf. f_equal. apply IH. intros i ev. apply Hf.
Qed.

Lemma omap_line_remainder_imap (f : nat → event → line) (data : list event) :
  (∀ i ev, line_remainder (f i ev) = None) →
  omap line_remainder (imap f data) = [].
Proof.
  revert f. induction data as [|x l IH]; intros f Hf; [done|].
  simpl. rewrite Hf. apply IH. intros i ev. apply Hf.
Qed.

Lemma filter_by_status_lines_rows (status_query : string) (data : list event) :
  omap line_row (filter_by_status_lines status_query data) = take 20 data.
Proof.
  unfold filter_by_status_lines. simpl. rewrite omap_app.
  rewrite omap_line_row_imap by done.
  case_bool_decide; simpl; by rewrite app_nil_r.
Qed.

Lemma filter_by_status_lines_remainders (status_query : string)
    (data : list event) :
  omap line_remainder (filter_by_status_lines status_query data) =
  if bool_decide (20 < length data)%nat
  then [Z.of_nat (length data) - 20] else [].
Proof.
  unfold filter_by_status_lines. simpl. rewrite omap_app.
  rewrite omap_line_remainder_imap by done.
  by case_bool_decide.
Qed.

(** C6.  [filter_by_status] with an argument reads the table once and
    replies once.  With [N] rows fetched, newest first: for [N > 20] the
    reply is the heading, the first 20 rows numbered from 1 and then one
    closing line that announces [N - 20]; for [N <= 20] the reply lists all
    [N] rows and has no closing line. *)
Theorem filter_by_status_truncates
    (days_ago : nat → list effect → string) (args : list string) (w : world) :
  args ≠ [] →
  let status_query := String.concat " " args in
  let data := filter_by_status_fetch (days_ago 30%nat (trace w)) status_query
                (cloud_sync_log w) in
  let N := length data in
  ∃ r,
    exec (filter_by_status days_ago args) w =
      record (ReplyText r) (record (Select TCloudSyncLog) w) ∧
    StronglySorted newer_first data ∧
    ((20 < N)%nat →
       r = Message (Title status_query
                    :: imap (λ i ev, OrderInfo (S i) ev) (take 20 data)
                    ++ [AndMore (Z.of_nat N - 20)]) ∧
       reply_rows r = take 20 data ∧ length (reply_rows r) = 20%nat ∧
       reply_remainders r = [Z.of_nat N - 20]) ∧
    ((N ≤ 20)%nat → reply_rows r = data ∧ reply_remainders r = []).
Proof.
  intros Hargs status_query data N.
  unfold filter_by_status. rewrite bool_decide_eq_false_2 by done.
  unfold exec, mbind, M_bind, isoformat_days_ago, select_by_status. simpl.
  fold status_query. fold data.
  assert (Hsorted : StronglySorted newer_first data).
  { apply (StronglySorted_merge_sort newer_first). }
  case_bool_decide as Hdata.
  - exists (StatusNotFound status_query). split_and!; [done..| |].
    + intros HN. subst N. rewrite Hdata in HN. simpl in HN. lia.
    + intros _. by rewrite Hdata.
  - exists (Message (filter_by_status_lines status_query data)).
    split_and!; [done..| |].
    + intros HN. unfold reply_rows, reply_remainders, reply_lines.
      rewrite filter_by_status_lines_rows, filter_by_status_lines_remainders.
      unfold filter_by_status_lines.
      rewrite bool_decide_eq_true_2 by done.
      split_and!; [done..| |done].
      rewrite length_take. lia.
    + intros HN. unfold reply_rows, reply_remainders, reply_lines.
      rewrite filter_by_status_lines_rows, filter_by_status_lines_remainders.
      rewrite bool_decide_eq_false_2 by lia.
      split; [|done]. apply take_ge. lia.
Qed.

(** ** Handlers gated by [ADMIN_IDS] *)

(** C8.  For a caller outside [ADMIN_IDS], [show_stats] and
    [send_notification] do one thing: they reply the refusal text to the
    caller.  No table is read or written, no message is sent to anyone else,
    and the tables are as before. *)
Theorem non_admin_is_only_refused (ADMIN_IDS : list Z)
    (send_ok : list effect → Z → string → bool)
    (days_ago : nat → list effect → string)
    (user : effective_user) (args : list string) (w : world) :
  user_id user ∉ ADMIN_IDS →
  let refused (w' : world) :=
    bot_users w' = bot_users w ∧
    cloud_sync_log w' = cloud_sync_log w ∧
    notifications_queue w' = notifications_queue w ∧
    trace w' = trace w ++ [ReplyText (Text admins_only)] in
  refused (exec (show_stats ADMIN_IDS days_ago user) w) ∧
  refused (exec (send_notification ADMIN_IDS send_ok user args) w).
Proof.
  intros Hna. unfold show_stats, send_notification.
  rewrite !bool_decide_eq_true_2 by done. done.
Qed.

(** ** Registration *)

Lemma rows_of_nil_iff (telegram_id : Z) (users : list BotUser.t) :
  rows_of telegram_id users = [] ↔
  telegram_id ∉ BotUser.telegram_id <$> users.
Proof.
  unfold rows_of.
  induction users as [|u l IH]; [by split; [intros _ ?%elem_of_nil|]|].
  rewrite filter_cons, fmap_cons, not_elem_of_cons.
  destruct (decide (BotUser.telegram_id u = telegram_id)) as [Heq|Hne].
  - split; [done|]. by intros [? _].
  - rewrite IH. split; [by intros ?; split | by intros [_ ?]].
Qed.

Lemma start_exec (ADMIN_IDS : list Z) (user : effective_user) (w : world) :
  exec (start ADMIN_IDS user) w =
  if bool_decide (rows_of (user_id user) (bot_users w) = [])
  then {| bot_users := bot_users w ++ [user_data ADMIN_IDS user];
          cloud_sync_log := cloud_sync_log w;
          notifications_queue := notifications_queue w;
          trace := trace w ++ [Select TBotUsers; Insert TBotUsers;
                               ReplyText (Welcome (user_first_name user))] |}
  else after [Select TBotUsers;
              ReplyText (Welcome (user_first_name user))] w.
Proof.
  unfold exec, start, mbind, M_bind, select_bot_user. simpl.
  fold (rows_of (user_id user) (bot_users w)).
  destruct (rows_of (user_id user) (bot_users w)) as [|r rs]; simpl.
  - unfold record. simpl. by rewrite <-!app_assoc.
  - unfold record, after. simpl. by rewrite <-!app_assoc.
Qed.

Lemma start_bot_users (ADMIN_IDS : list Z) (user : effective_user) (w : world) :
  bot_users (exec (start ADMIN_IDS user) w) =
  register ADMIN_IDS user (bot_users w).
Proof.
  rewrite start_exec. unfold register. by case_bool_decide.
Qed.

Lemma starts_bot_users (ADMIN_IDS : list Z) (callers : list effective_user)
    (w : world) :
  bot_users (foldl (λ w u, exec (start ADMIN_IDS u) w) w callers) =
  foldl (λ users u, register ADMIN_IDS u users) (bot_users w) callers.
Proof.
  revert w. induction callers as [|u l IH]; intros w; [done|].
  simpl. by rewrite IH, start_bot_users.
Qed.

Lemma register_ids (ADMIN_IDS : list Z) (user : effective_user)
    (users : list BotUser.t) :
  BotUser.telegram_id <$> register ADMIN_IDS user users =
  if bool_decide (user_id user ∈ BotUser.telegram_id <$> users)
  then BotUser.telegram_id <$> users
  else (BotUser.telegram_id <$> users) ++ [user_id user].
Proof.
  unfold register.
  case_bool_decide as Hrows.
  - apply rows_of_nil_iff in Hrows.
    rewrite bool_decide_eq_false_2 by done. by rewrite fmap_app.
  - rewrite bool_decide_eq_true_2; [done|]. apply dec_stable.
    intros Hn. apply Hrows. by apply rows_of_nil_iff.
Qed.

Lemma registers_ids (ADMIN_IDS : list Z) (callers : list effective_user)
    (users : list BotUser.t) :
  let ids := BotUser.telegram_id <$>
             foldl (λ users u, register ADMIN_IDS u users) users callers in
  (NoDup (BotUser.telegram_id <$> users) → NoDup ids) ∧
  (∀ u, u ∈ callers → user_id u ∈ ids) ∧
  (∀ i, i ∈ BotUser.telegram_id <$> users → i ∈ ids).
Proof.
  revert users. induction callers as [|c l IH]; intros users; simpl.
  - split_and!; [done | by intros u ?%elem_of_nil | done].
  - destruct (IH (register ADMIN_IDS c users)) as (Hnd & Hin & Hmono).
    assert (Hc : user_id c ∈ BotUser.telegram_id <$> register ADMIN_IDS c users).
    { rewrite register_ids. case_bool_decide; [done|].
      apply elem_of_app. right. apply list_elem_of_here. }
    split_and!.
    + intros Hnd0. apply Hnd. rewrite register_ids.
      case_bool_decide as Hmem; [done|].
      apply NoDup_app. split_and!; [done| |apply NoDup_singleton].
      by intros i Hi ->%list_elem_of_singleton.
    + intros u [->|Hu]%elem_of_cons; [by apply Hmono | by apply Hin].
    + intros i Hi. apply Hmono. rewrite register_ids.
      case_bool_decide; [done|]. apply elem_of_app. by left.
Qed.

Lemma rows_of_length (telegram_id : Z) (users : list BotUser.t) :
  NoDup (BotUser.telegram_id <$> users) →
  telegram_id ∈ BotUser.telegram_id <$> users →
  length (rows_of telegram_id users) = 1%nat.
Proof.
  unfold rows_of. induction users as [|u l IH]; intros Hnd Hin.
  - by apply elem_of_nil in Hin.
  - rewrite fmap_cons in Hnd, Hin. apply NoDup_cons in Hnd as [Hnu Hnd].
    rewrite filter_cons.
    destruct (decide (BotUser.telegram_id u = telegram_id)) as [<-|Hne].
    + apply rows_of_nil_iff in Hnu. unfold rows_of in Hnu. by rewrite Hnu.
    + apply elem_of_cons in Hin as [Heq|Hin]; [done | by apply IH].
Qed.

(** C10.  [start] writes a registry row only when the registry has no row
    with the caller's [telegram_id], and then writes one.  So after any
    sequence of [start] calls on a registry whose rows have distinct
    [telegram_id], every caller has exactly one row, the rows still have
    distinct [telegram_id], and the recipient list a broadcast reads from the
    registry names no user twice. *)
Theorem start_registers_once (ADMIN_IDS : list Z)
    (callers : list effective_user) (w : world) :
  NoDup (BotUser.telegram_id <$> bot_users w) →
  let w' := foldl (λ w u, exec (start ADMIN_IDS u) w) w callers in
  (∀ (u : effective_user) (w0 : world),
     bot_users (exec (start ADMIN_IDS u) w0) =
     if bool_decide (rows_of (user_id u) (bot_users w0) = [])
     then bot_users w0 ++ [user_data ADMIN_IDS u]
     else bot_users w0) ∧
  (∀ u, u ∈ callers →
        length (rows_of (user_id u) (bot_users w')) = 1%nat) ∧
  NoDup (BotUser.telegram_id <$> bot_users w') ∧
  NoDup (select_telegram_ids w').1.
Proof.
  intros Hnd w'.
  destruct (registers_ids ADMIN_IDS callers (bot_users w))
    as (Hnd' & Hin & _).
  assert (Hw' : NoDup (BotUser.telegram_id <$> bot_users w')).
  { subst w'. rewrite starts_bot_users. by apply Hnd'. }
  split_and!; [|  |done|done].
  - intros u w0. apply start_bot_users.
  - intros u Hu. apply rows_of_length; [done|].
    subst w'. rewrite starts_bot_users. by apply Hin.
Qed.

(** ** Broadcast *)

Lemma count_ok_cons (b ok : bool) (oks : list bool) :
  count_ok b (ok :: oks) =
  (if bool_decide (ok = b) then 1 else 0) + count_ok b oks.
Proof.
  unfold count_ok. rewrite filter_cons.
  destruct (decide (ok = b)) as [Heq|Hne].
  - rewrite bool_decide_eq_true_2 by done. simpl. lia.
  - rewrite bool_decide_eq_false_2 by done. lia.
Qed.

Lemma count_ok_total (oks : list bool) :
  count_ok true oks + count_ok false oks = Z.of_nat (length oks).
Proof.
  induction oks as [|ok oks IH]; [done|].
  rewrite !count_ok_cons. simpl length. destruct ok; simpl; lia.
Qed.

Lemma broadcast_oks_length (send_ok : list effect → Z → string → bool)
    (text : string) (users : list Z) (tr : list effect) :
  length (broadcast_oks send_ok text users tr) = length users.
Proof.
  revert tr. induction users as [|c l IH]; intros tr; [done|].
  simpl. by rewrite IH.
Qed.

Lemma notify_loop_run (send_ok : list effect → Z → string → bool)
    (text : string) (users : list Z) (sent_count failed_count : Z)
    (w : world) :
  let oks := broadcast_oks send_ok text users (trace w) in
  notify_loop send_ok text users sent_count failed_count w =
  ((sent_count + count_ok true oks, failed_count + count_ok false oks),
   after (zip_with (λ chat_id ok, SendMessage chat_id text ok) users oks) w).
Proof.
  revert sent_count failed_count w.
  induction users as [|c l IH]; intros s f w; simpl.
  - unfold mret, M_ret, after, count_ok. simpl. rewrite app_nil_r.
    destruct w. simpl. do 2 f_equal; lia.
  - unfold mbind, M_bind, send_message. simpl.
    rewrite !count_ok_cons.
    destruct (send_ok (trace w) c text) eqn:Hok; rewrite IH; simpl;
      unfold after; simpl; rewrite <-app_assoc; simpl;
      do 2 f_equal; lia.
Qed.

(** C3.  A broadcast by an administrator with a text reads the recipient
    list once and then calls the gateway once per recipient, in list order,
    whatever the outcome of the earlier calls; no table changes.  With [R]
    recipients, [R > 0], the reply is the tally of the calls that returned
    and the calls that raised, and the two counts add up to [R]; with no
    recipient no call is made and the reply says so. *)
Theorem send_notification_tally (ADMIN_IDS : list Z)
    (send_ok : list effect → Z → string → bool)
    (user : effective_user) (args : list string) (w : world) :
  user_id user ∈ ADMIN_IDS →
  args ≠ [] →
  let recipients := BotUser.telegram_id <$> bot_users w in
  let text := admin_notice (String.concat " " args) in
  ∃ (oks : list bool) (r : reply),
    length oks = length recipients ∧
    exec (send_notification ADMIN_IDS send_ok user args) w =
      after (Select TBotUsers
             :: zip_with (λ chat_id ok, SendMessage chat_id text ok)
                  recipients oks
             ++ [ReplyText r]) w ∧
    match r with
    | Tally sent_count failed_count =>
        sent_count = count_ok true oks ∧
        failed_count = count_ok false oks ∧
        sent_count + failed_count = Z.of_nat (length recipients)
    | _ => r = Text no_users ∧ recipients = []
    end ∧
    (recipients ≠ [] → ∃ sent_count failed_count,
                         r = Tally sent_count failed_count).
Proof.
  intros Hadmin Hargs recipients text.
  unfold send_notification.
  rewrite bool_decide_eq_false_2 by (by intros Hn; apply Hn).
  rewrite bool_decide_eq_false_2 by done.
  unfold exec, mbind, M_bind, select_telegram_ids. simpl.
  fold recipients. fold text.
  case_bool_decide as Hrec.
  - exists [], (Text no_users). rewrite Hrec. simpl.
    split_and!; try done.
    unfold record, after. simpl. by rewrite <-app_assoc.
  - rewrite notify_loop_run. simpl.
    set (oks := broadcast_oks send_ok text recipients
                  (trace w ++ [Select TBotUsers])).
    exists oks, (Tally (0 + count_ok true oks) (0 + count_ok false oks)).
    assert (Hlen : length oks = length recipients)
      by apply broadcast_oks_length.
    split; [done|]. split; [|split; [|eauto]].
    + unfold record, after. simpl. rewrite <-!app_assoc. done.
    + split_and!; [lia..|]. rewrite <-Hlen, <-count_ok_total. lia.
Qed.

(** ** The poll cycle *)

#[global] Instance older_first_trans : Transitive older_first.
Proof. intros a b c Hab Hbc. unfold older_first in *. by etrans. Qed.

#[global] Instance older_first_total : Total older_first.
Proof. intros a b. unfold older_first. apply (total String.le). Qed.

Lemma dispatch_outcomes_length (send_ok : list effect → Z → string → bool)
    (days_ago : nat → list effect → string)
    (batch : list Notification.t) (tr : list effect) :
  length (dispatch_outcomes send_ok days_ago batch tr) = length batch.
Proof.
  revert tr. induction batch as [|n l IH]; intros tr; [done|].
  simpl. by rewrite IH.
Qed.

Lemma dispatch_loop_run (send_ok : list effect → Z → string → bool)
    (days_ago : nat → list effect → string)
    (batch : list Notification.t) (w : world) :
  let outs := dispatch_outcomes send_ok days_ago batch (trace w) in
  exec (dispatch_loop send_ok days_ago batch) w =
  {| bot_users := bot_users w;
     cloud_sync_log := cloud_sync_log w;
     notifications_queue := mark_rows batch outs <$> notifications_queue w;
     trace := trace w ++ concat (zip_with dispatch_effects batch outs.*1) |}.
Proof.
  revert w. induction batch as [|n l IH]; intros w; simpl.
  - unfold exec, mret, M_ret, mark_rows. simpl.
    rewrite app_nil_r, list_fmap_id. by destruct w.
  - unfold exec, mbind, M_bind, send_message in *. simpl.
    destruct (send_ok (trace w) (Notification.telegram_id n)
                (Notification.message_text n)) eqn:Hok; simpl.
    + specialize (IH (record (Update TNotificationsQueue)
        {| bot_users := bot_users w;
           cloud_sync_log := cloud_sync_log w;
           notifications_queue :=
             (λ m, if bool_decide (Notification.id m = Notification.id n)
                   then mark_sent
                          (days_ago 0%nat
                             (trace w ++
                              [SendMessage (Notification.telegram_id n)
                                 (Notification.message_text n) true])) m
                   else m)
             <$> notifications_queue w;
           trace := trace w ++
                    [SendMessage (Notification.telegram_id n)
                       (Notification.message_text n) true] |})).
      simpl in IH. rewrite IH. f_equal.
      * rewrite <-list_fmap_compose. apply list_fmap_ext. intros i m _.
        unfold mark_rows, mark_row. simpl. done.
      * by rewrite <-!app_assoc.
    + specialize (IH (record (SendMessage (Notification.telegram_id n)
                                (Notification.message_text n) false) w)).
      simpl in IH. rewrite IH. f_equal.
      by rewrite <-!app_assoc.
Qed.

Lemma mark_rows_cons (n : Notification.t) (o : bool * string)
    (batch : list Notification.t) (outs : list (bool * string))
    (m : Notification.t) :
  mark_rows (n :: batch) (o :: outs) m = mark_rows batch outs (mark_row n o m).
Proof. done. Qed.

(** A row that no delivered task of the batch names is left as it is. *)
Lemma mark_rows_untouched (batch : list Notification.t)
    (outs : list (bool * string)) (m : Notification.t) :
  (∀ i n o, batch !! i = Some n → outs !! i = Some o →
            Notification.id n = Notification.id m → o.1 = false) →
  mark_rows batch outs m = m.
Proof.
  revert outs. induction batch as [|n l IH]; intros [|o outs] H; try done.
  rewrite mark_rows_cons.
  assert (Hrow : mark_row n o m = m).
  { unfold mark_row. case_bool_decide as Hid; [|by rewrite andb_false_r].
    by rewrite (H 0%nat n o eq_refl eq_refl). }
  rewrite Hrow. apply IH. intros i n' o' Hn Ho. by apply (H (S i)).
Qed.

(** A row named by one delivered task of the batch is marked with the time
    of that delivery. *)
Lemma mark_rows_delivered (batch : list Notification.t)
    (outs : list (bool * string)) (m : Notification.t) (i : nat)
    (n : Notification.t) (ts : string) :
  NoDup (Notification.id <$> batch) →
  batch !! i = Some n → outs !! i = Some (true, ts) →
  Notification.id n = Notification.id m →
  mark_rows batch outs m = mark_sent ts m.
Proof.
  revert outs i.
  induction batch as [|n' l IH]; intros [|o outs] i Hnd Hn Ho Hid; try done.
  rewrite fmap_cons in Hnd. apply NoDup_cons in Hnd as [Hfresh Hnd].
  rewrite mark_rows_cons. destruct i as [|i]; simpl in Hn, Ho.
  - injection Hn as ->. injection Ho as ->.
    unfold mark_row. simpl. rewrite bool_decide_eq_true_2 by done.
    apply mark_rows_untouched. intros j n'' o'' Hj _ Hid'. exfalso.
    apply Hfresh. simpl in Hid'. rewrite Hid, <-Hid'.
    apply list_elem_of_fmap_2. by eapply list_elem_of_lookup_2.
  - assert (Hrow : mark_row n' o m = m).
    { unfold mark_row. case_bool_decide as Hid'; [|by rewrite andb_false_r].
      exfalso. apply Hfresh. rewrite <-Hid', <-Hid.
      apply list_elem_of_fmap_2. by eapply list_elem_of_lookup_2. }
    rewrite Hrow. by eapply IH.
Qed.

Lemma pending_batch_sublist (queue : list Notification.t) :
  ∃ rest, pending_batch queue ++ rest ≡ₚ pending queue ∧
          pending_batch queue ++ rest = merge_sort older_first (pending queue).
Proof.
  exists (drop 10 (merge_sort older_first (pending queue))).
  unfold pending_batch. rewrite take_drop. split; [|done].
  apply merge_sort_Permutation.
Qed.

Lemma pending_batch_elem (queue : list Notification.t) (n : Notification.t) :
  n ∈ pending_batch queue →
  n ∈ queue ∧ Notification.status n = "pending".
Proof.
  intros Hn. destruct (pending_batch_sublist queue) as (rest & Hperm & _).
  assert (Hp : n ∈ pending queue).
  { rewrite <-Hperm. apply elem_of_app. by left. }
  unfold pending in Hp. by apply list_elem_of_filter in Hp as [? ?].
Qed.

Lemma pending_batch_ids (queue : list Notification.t) :
  NoDup (Notification.id <$> queue) →
  NoDup (Notification.id <$> pending_batch queue).
Proof.
  intros Hnd. destruct (pending_batch_sublist queue) as (rest & Hperm & _).
  assert (Hp : NoDup (Notification.id <$> pending queue)).
  { apply (sublist_NoDup _ _ Hnd).
    apply fmap_sublist. unfold pending. apply sublist_filter. }
  rewrite <-Hperm, fmap_app in Hp. by apply NoDup_app in Hp as [? _].
Qed.

(** C4.  One poll cycle fetches the pending tasks with the oldest
    [created_at], at most 10 of them, and calls the gateway once for each of
    them in that order, whatever the outcome of the earlier calls.  In a
    queue whose tasks have distinct [id], a fetched task whose call returned
    becomes [sent] with [sent_at] set, a fetched task whose call raised is
    left exactly as it was (pending, [sent_at] untouched), and so is every
    task that was not fetched. *)
Theorem check_notifications_cycle
    (send_ok : list effect → Z → string → bool)
    (days_ago : nat → list effect → string) (w : world) :
  NoDup (Notification.id <$> notifications_queue w) →
  let queue := notifications_queue w in
  let batch := pending_batch queue in
  let w' := exec (check_notifications send_ok days_ago) w in
  length batch = (length (pending queue) `min` 10)%nat ∧
  StronglySorted older_first batch ∧
  (∀ n, n ∈ batch → n ∈ queue ∧ Notification.status n = "pending") ∧
  (∀ n m, n ∈ batch → m ∈ pending queue → m ∉ batch → older_first n m) ∧
  ∃ oks : list bool,
    length oks = length batch ∧
    bot_users w' = bot_users w ∧
    cloud_sync_log w' = cloud_sync_log w ∧
    trace w' = trace w ++ Select TNotificationsQueue
                          :: concat (zip_with dispatch_effects batch oks) ∧
    sends (concat (zip_with dispatch_effects batch oks)) =
      zip_with (λ n ok, (Notification.telegram_id n,
                         Notification.message_text n, ok)) batch oks ∧
    Forall2 (λ m m',
       (∀ i, batch !! i = Some m → oks !! i = Some true →
             ∃ ts, m' = mark_sent ts m ∧
                   Notification.status m' = "sent" ∧
                   Notification.sent_at m' = Some ts) ∧
       (∀ i, batch !! i = Some m → oks !! i = Some false → m' = m) ∧
       (m ∉ batch → m' = m))
      queue (notifications_queue w').
Proof.
  intros Hnd queue batch w'.
  destruct (pending_batch_sublist queue) as (rest & Hperm & Hsorted).
  fold batch in Hperm, Hsorted.
  assert (Hss : StronglySorted older_first (batch ++ rest)).
  { rewrite Hsorted. apply (StronglySorted_merge_sort older_first). }
  assert (Hids : NoDup (Notification.id <$> batch))
    by by apply pending_batch_ids.
  split_and!.
  - subst batch. unfold pending_batch.
    rewrite length_take, (Permutation_length (merge_sort_Permutation _ _)).
    lia.
  - by apply StronglySorted_app_1_l in Hss.
  - apply pending_batch_elem.
  - intros n m Hn Hm Hnm. eapply StronglySorted_app_1_elem_of; [done..|].
    rewrite <-Hperm in Hm. by apply elem_of_app in Hm as [?|?].
  - set (outs := dispatch_outcomes send_ok days_ago batch
                   (trace w ++ [Select TNotificationsQueue])).
    assert (Hw' : w' =
      {| bot_users := bot_users w;
         cloud_sync_log := cloud_sync_log w;
         notifications_queue := mark_rows batch outs <$> queue;
         trace := (trace w ++ [Select TNotificationsQueue]) ++
                  concat (zip_with dispatch_effects batch outs.*1) |}).
    { subst w'. unfold check_notifications, exec, mbind, M_bind,
        select_pending. simpl.
      apply (dispatch_loop_run send_ok days_ago batch
               (record (Select TNotificationsQueue) w)). }
    exists (outs.*1).
    assert (Hlen : length outs = length batch)
      by apply dispatch_outcomes_length.
    rewrite Hw'. simpl. split_and!; [by rewrite length_fmap|done|done| | |].
    + by rewrite <-app_assoc.
    + clear. generalize (outs.*1). induction batch as [|n l IH];
        intros [|ok oks]; try done.
      simpl. unfold sends in *. destruct ok; simpl; by rewrite IH.
    + apply Forall2_fmap_r, Forall_Forall2_diag, Forall_forall.
      intros m Hm. simpl. split_and!.
      * intros i Hi Hok.
        apply list_lookup_fmap_Some in Hok as ([ok ts] & Heq & Ho).
        simpl in Heq. subst ok. exists ts.
        by rewrite (mark_rows_delivered batch outs m i m ts).
      * intros i Hi Hok. apply mark_rows_untouched.
        intros j n o Hj Ho Hid.
        assert (n = m) as ->.
        { apply (NoDup_fmap_eq Notification.id queue); [done| |done..].
          apply pending_batch_elem. by eapply list_elem_of_lookup_2. }
        assert (j = i) as ->.
        { apply (NoDup_lookup batch j i m); [|done..].
          by eapply NoDup_fmap_1. }
        rewrite list_lookup_fmap, Ho in Hok. by injection Hok.
      * intros Hnot. apply mark_rows_untouched.
        intros j n o Hj Ho Hid. exfalso. apply Hnot.
        assert (n = m) as <-; [|by eapply list_elem_of_lookup_2].
        apply (NoDup_fmap_eq Notification.id queue); [done| |done..].
        apply pending_batch_elem. by eapply list_elem_of_lookup_2.
Qed.

(** ** The properties on sample data *)

Example sample_show_orders_dict :
  show_orders_dict [Sample.a1; Sample.a3; Sample.b2] =
  {[ 1 := Sample.a3; 2 := Sample.b2 ]}.
Proof. by vm_compute. Qed.

Example sample_show_orders_dict_tie :
  show_orders_dict [Sample.a3; Sample.a1; Sample.a3'] !! 1 = Some Sample.a3 ∧
  show_orders_dict [Sample.a3'; Sample.a1; Sample.a3] !! 1 = Some Sample.a3'.
Proof. by vm_compute. Qed.

Example sample_show_completed_orders_dict :
  show_completed_orders_dict [Sample.a1; Sample.a4; Sample.a3] !! 1
  = Some Sample.a1.
Proof. by vm_compute. Qed.

Example sample_show_orders_fetch :
  show_orders_fetch Sample.cutoff Sample.log = [Sample.a3; Sample.b2; Sample.a1].
Proof. by vm_compute. Qed.

Example sample_show_orders_deleted :
  show_orders_dict (show_orders_fetch Sample.cutoff Sample.log) =
  {[ 1 := Sample.a3; 2 := Sample.b2 ]}.
Proof. by vm_compute. Qed.

Example sample_filter_by_status_wildcard :
  filter_by_status_fetch Sample.cutoff "_" Sample.log =
  [Sample.c5; Sample.a4; Sample.a3; Sample.b2; Sample.a1].
Proof. by vm_compute. Qed.

Example sample_broadcast :
  trace (exec (send_notification Sample.admins Sample.gateway (Sample.user 1)
                 ["maintenance"; "tonight"]) Sample.world3) =
  [ Select TBotUsers;
    SendMessage 1 (admin_notice "maintenance tonight") true;
    SendMessage 2 (admin_notice "maintenance tonight") false;
    SendMessage 3 (admin_notice "maintenance tonight") true;
    ReplyText (Tally 2 1) ].
Proof. by vm_compute. Qed.

Example sample_check_notifications :
  let w' := exec (check_notifications Sample.gateway Sample.clock)
              Sample.world0 in
  sends (trace w') = [(8, "ping", false); (8, "ping", false); (7, "ping", true)] ∧
  notifications_queue w' =
    [ mark_sent "2024-05-15T00:00:00"
        (Sample.task 1 7 "pending" "2024-05-03T08:00:00");
      Sample.task 2 8 "pending" "2024-05-01T08:00:00";
      Sample.task 3 9 "sent" "2024-04-30T08:00:00";
      Sample.task 4 8 "pending" "2024-05-02T08:00:00" ].
Proof. by vm_compute. Qed.

Lemma show_orders_dict_permutation_witness :
  NoDup (created_at <$> [Sample.a1; Sample.a3; Sample.b2]) ∧
  show_orders_dict [Sample.a1; Sample.a3; Sample.b2] =
  show_orders_dict [Sample.b2; Sample.a1; Sample.a3].
Proof.
  assert (Hnd : NoDup (created_at <$> [Sample.a1; Sample.a3; Sample.b2]))
    by (apply (bool_decide_unpack _); vm_compute; exact I).
  split; [exact Hnd|].
  apply (show_orders_dict_permutation _ _ Hnd).
  apply (Permutation_app_comm [Sample.a1; Sample.a3] [Sample.b2]).
Defined.

Lemma filter_by_status_fetch_plain_witness :
  Like.plain "New" = true ∧
  (Sample.b2 ∈ filter_by_status_fetch Sample.cutoff "New" Sample.log ↔
   status_has "New" Sample.b2).
Proof.
  split; [reflexivity|].
  apply (filter_by_status_fetch_plain Sample.cutoff "New" Sample.log
           eq_refl).
  - apply (bool_decide_unpack _). vm_compute. exact I.
  - apply (bool_decide_unpack _). vm_compute. exact I.
Defined.

(** The argument [_] selects an event whose status is [New], although [_]
    does not occur in [New]. *)
Lemma filter_by_status_fetch_underscore :
  ¬ (∀ (thirty_days_ago status_query : string) (log : list event) (e : event),
       e ∈ log → in_window thirty_days_ago e →
       (e ∈ filter_by_status_fetch thirty_days_ago status_query log ↔
        status_has status_query e)).
Proof.
  intros H.
  destruct (H Sample.cutoff "_" [Sample.b2] Sample.b2) as [Hhas _].
  - apply list_elem_of_here.
  - apply (bool_decide_unpack _). vm_compute. exact I.
  - assert (Hin : Sample.b2 ∈
                  filter_by_status_fetch Sample.cutoff "_" [Sample.b2]).
    { apply (bool_decide_unpack _). vm_compute. exact I. }
    apply Hhas in Hin as (st & Hst & Hsub).
    injection Hst as <-. apply PyStrFacts.contains_spec in Hsub.
    vm_compute in Hsub. discriminate.
Qed.

Lemma filter_by_status_truncates_witness :
  ["New"] ≠ [] ∧
  ∃ r, exec (filter_by_status Sample.clock ["New"]) Sample.world3 =
         record (ReplyText r) (record (Select TCloudSyncLog) Sample.world3) ∧
       length (reply_rows r) = 20%nat ∧ reply_remainders r = [1].
Proof.
  assert (Hargs : ["New"] ≠ @nil string) by discriminate.
  split; [exact Hargs|].
  destruct (filter_by_status_truncates Sample.clock ["New"] Sample.world3
              Hargs) as (r & Hexec & _ & Hmore & _).
  exists r. split; [exact Hexec|].
  destruct Hmore as (_ & _ & Hlen & Hrem); [vm_compute; lia|].
  split; [exact Hlen|]. rewrite Hrem. reflexivity.
Defined.

Lemma non_admin_is_only_refused_witness :
(7 ∉ Sample.admins) ∧
  trace (exec (show_stats Sample.admins Sample.clock (Sample.user 7))
           Sample.world3) = [ReplyText (Text admins_only)] ∧
  trace (exec (send_notification Sample.admins Sample.gateway (Sample.user 7)
                 ["hello"]) Sample.world3) = [ReplyText (Text admins_only)].
Proof.
  assert (Hna : 7 ∉ Sample.admins)
    by (apply (bool_decide_unpack _); vm_compute; exact I).
  split; [exact Hna|].
  destruct (non_admin_is_only_refused Sample.admins Sample.gateway
              Sample.clock (Sample.user 7) ["hello"] Sample.world3 Hna)
    as [(_ & _ & _ & Hstats) (_ & _ & _ & Hnotify)].
  split; [exact Hstats | exact Hnotify].
Defined.

Lemma start_registers_once_witness :
  NoDup (BotUser.telegram_id <$> bot_users Sample.world0) ∧
  length (rows_of 7
            (bot_users
               (foldl (λ w u, exec (start Sample.admins u) w) Sample.world0
                  [Sample.user 7; Sample.user 8; Sample.user 7;
                   Sample.user 7]))) = 1%nat.
Proof.
  assert (Hnd : NoDup (BotUser.telegram_id <$> bot_users Sample.world0))
    by apply NoDup_nil_2.
  split; [exact Hnd|].
  destruct (start_registers_once Sample.admins
              [Sample.user 7; Sample.user 8; Sample.user 7; Sample.user 7]
              Sample.world0 Hnd) as (_ & Hone & _).
  apply (Hone (Sample.user 7)). apply list_elem_of_here.
Defined.

Lemma send_notification_tally_witness :
  1 ∈ Sample.admins ∧ ["maintenance"; "tonight"] ≠ [] ∧
  ∃ (oks : list bool) (r : reply),
    length oks = 3%nat ∧
    match r with
    | Tally sent_count failed_count => sent_count + failed_count = 3
    | _ => False
    end.
Proof.
  assert (Hadmin : 1 ∈ Sample.admins) by apply list_elem_of_here.
  assert (Hargs : ["maintenance"; "tonight"] ≠ @nil string) by discriminate.
  split; [exact Hadmin|]. split; [exact Hargs|].
  destruct (send_notification_tally Sample.admins Sample.gateway
              (Sample.user 1) ["maintenance"; "tonight"] Sample.world3
              Hadmin Hargs) as (oks & r & Hlen & _ & Hr & Hsome).
  exists oks, r. split; [exact Hlen|].
  destruct Hsome as (s & f & ->); [discriminate|].
  destruct Hr as (_ & _ & Hsum). exact Hsum.
Defined.

Lemma check_notifications_cycle_witness :
  NoDup (Notification.id <$> notifications_queue Sample.world0) ∧
  length (pending_batch (notifications_queue Sample.world0)) = 3%nat ∧
  StronglySorted older_first
    (pending_batch (notifications_queue Sample.world0)).
Proof.
  assert (Hnd : NoDup (Notification.id <$> notifications_queue Sample.world0))
    by (apply (bool_decide_unpack _); vm_compute; exact I).
  split; [exact Hnd|].
  destruct (check_notifications_cycle Sample.gateway Sample.clock
              Sample.world0 Hnd) as (Hlen & Hsorted & _).
  split; [exact Hlen | exact Hsorted].
Defined.
